(** * Seeded Falcon-512 shim: entropy injection through a thread-local slot

    Shallow embedding of
      - [src/falcon_seeded/c/randombytes_kmac.c]  (the entropy slot), and
      - [src/falcon_seeded/c/falcon_shim.c]       (the three seeded wrappers),
    followed by the properties of the slot and of the wrappers.

    Code that lives outside the two files is foreign and enters as follows.
      - The PQClean routines are declared but not defined here: they are
        taken as an interface ([PQClean]) whose members are interaction
        trees, i.e. terminating code that reads and writes memory and calls
        back into [randombytes] / [PQCLEAN_randombytes].
      - A fill callback is a function on the memory and on the state of the
        generator behind it: the embedding covers callbacks that fill the
        buffer and return.  One that calls [tt_set_randombytes] from inside
        is not represented.
      - A thread is an index; [__thread] storage is a map from threads. *)

From Stdlib Require Import NArith ZArith Lia List.
From Stdlib Require Import Strings.Byte.
From stdpp Require Import base option list gmap.

Local Open Scope N_scope.

(** ** Machine data *)

(** [uint8_t*] is an address, [size_t] an unsigned count, [int] a status.
    The only arithmetic the sources perform is [i++] under the guard
    [i < outlen] and the address [out + i]; neither can wrap for a
    representable [outlen], so both are written on unbounded [N]. *)
Definition ptr := N.
Definition size_t := N.
Definition int := Z.

(** An execution context: the thread that is running the call. *)
Definition tid := nat.

(** Byte-addressed memory; a cell never written reads as zero. *)
Abbreviation memory := (gmap N byte).

Definition load (m : memory) (a : ptr) : byte := default x00 (m !! a).
Definition store (m : memory) (a : ptr) (b : byte) : memory := <[a := b]> m.

(** What a fill callback can reach: memory, and the private state [X] of
    the generator behind it (the DRBG kept on the caller's side). *)
Record Env (X : Type) : Type := mkEnv { mem : memory; gen : X }.
Arguments mkEnv {X} _ _.
Arguments mem {X} _.
Arguments gen {X} _.

(** The code behind a [void ( * )(uint8_t*, size_t)]. *)
Abbreviation FillCode X := (ptr -> size_t -> Env X -> Env X).

(** A function pointer of that type; [None] is the null pointer [0]. *)
Abbreviation fill_fn_t X := (option (FillCode X)).

(** [__thread static void ( *tls_fill)(uint8_t*, size_t) = 0;]
    One instance per thread, each initially null: a finite map from threads
    to the callbacks they hold, a thread absent from the map holding [0]. *)
Record World (X : Type) : Type := mkWorld {
  tls_fill : gmap tid (FillCode X);
  env : Env X
}.
Arguments mkWorld {X} _ _.
Arguments tls_fill {X} _.
Arguments env {X} _.

(** ** randombytes_kmac.c *)

Section RandombytesKmac.
Context {X : Type}.

(** [for (size_t i = 0; i < outlen; i++) out[i] = 0;] from index [i] on;
    [fuel] bounds the number of iterations. *)
Fixpoint zero_loop (fuel : nat) (out : ptr) (i outlen : size_t) (m : memory)
  : memory :=
  match fuel with
  | O => m
  | S fuel' =>
      if i <? outlen
      then zero_loop fuel' out (N.succ i) outlen (store m (out + i) x00)
      else m
  end.

Definition zero_fill (out : ptr) (outlen : size_t) (m : memory) : memory :=
  zero_loop (N.to_nat outlen) out 0 outlen m.

(** [void randombytes(uint8_t* out, size_t outlen)] run by thread [t]. *)
Definition randombytes (t : tid) (out : ptr) (outlen : size_t)
    (w : World X) : World X :=
  match tls_fill w !! t with
  | Some f => mkWorld (tls_fill w) (f out outlen (env w))
  | None =>
      mkWorld (tls_fill w)
              (mkEnv (zero_fill out outlen (mem (env w))) (gen (env w)))
  end.

(** [void PQCLEAN_randombytes(uint8_t* out, size_t outlen)] *)
Definition PQCLEAN_randombytes (t : tid) (out : ptr) (outlen : size_t)
    (w : World X) : World X :=
  randombytes t out outlen w.

(** [void tt_set_randombytes(void ( *fill_fn)(uint8_t*, size_t))]:
    [tls_fill = fill_fn;] on the running thread's instance. *)
Definition tt_set_randombytes (t : tid) (fill_fn : fill_fn_t X)
    (w : World X) : World X :=
  mkWorld (partial_alter (fun _ => fill_fn) t (tls_fill w)) (env w).

End RandombytesKmac.

(** ** External code as interaction trees *)

(** A terminating computation that returns an [R] and may, on the way,
    perform events of signature [E]: the event is answered with an [A] and
    the computation continues from there. *)
Inductive Code (E : Type -> Type) (R : Type) : Type :=
| Ret (r : R)
| Vis (A : Type) (e : E A) (k : A -> Code E R).
Arguments Ret {E R} r.
Arguments Vis {E R A} e k.

Fixpoint bind {E : Type -> Type} {R T : Type}
    (c : Code E R) (f : R -> Code E T) : Code E T :=
  match c with
  | Ret r => f r
  | Vis e k => Vis e (fun a => bind (k a) f)
  end.

Definition trigger {E : Type -> Type} {A : Type} (e : E A) : Code E A :=
  Vis e Ret.

Fixpoint translate {E F : Type -> Type} {R : Type}
    (h : forall A, E A -> F A) (c : Code E R) : Code F R :=
  match c with
  | Ret r => Ret r
  | Vis e k => Vis (h _ e) (fun a => translate h (k a))
  end.

#[export] Instance code_ret {E} : MRet (Code E) := fun _ r => Ret r.
#[export] Instance code_bind {E} : MBind (Code E) := fun _ _ f c => bind c f.

(** Running a tree against a state [St], every event answered by [h]. *)
Fixpoint run {St : Type} {E : Type -> Type} {R : Type}
    (h : forall A, E A -> St -> A * St) (c : Code E R) (s : St) : R * St :=
  match c with
  | Ret r => (r, s)
  | Vis e k => let '(a, s') := h _ e s in run h (k a) s'
  end.

(** What a PQClean routine can do: touch memory, and ask for entropy
    through either of the two symbols exported by [randombytes_kmac.c].
    It cannot name [tt_set_randombytes], which PQClean does not declare. *)
Inductive pqE : Type -> Type :=
| Load (a : ptr) : pqE byte
| Store (a : ptr) (b : byte) : pqE unit
| Call_randombytes (out : ptr) (outlen : size_t) : pqE unit
| Call_PQCLEAN_randombytes (out : ptr) (outlen : size_t) : pqE unit.

(** What the shim's callers and the shim itself can do in addition. *)
Inductive shimE (X : Type) : Type -> Type :=
| Pq (A : Type) (e : pqE A) : shimE X A
| Call_tt_set_randombytes (fill_fn : fill_fn_t X) : shimE X unit.
Arguments Pq {X A} e.
Arguments Call_tt_set_randombytes {X} fill_fn.

(** The three PQClean symbols declared at the top of [falcon_shim.c]. *)
Class PQClean : Type := {
  PQCLEAN_FALCON512_CLEAN_crypto_sign_keypair
    (pk sk : ptr) : Code pqE int;
  PQCLEAN_FALCON512_CLEAN_crypto_sign_signature
    (sig siglen m : ptr) (mlen : size_t) (sk : ptr) : Code pqE int;
  PQCLEAN_FALCON512_CLEAN_crypto_sign_verify
    (sig : ptr) (siglen : size_t) (m : ptr) (mlen : size_t) (pk : ptr)
    : Code pqE int
}.

(** What one call into the slot's translation unit looks like from outside:
    an installation, or an entropy request together with the slot value the
    request found. *)
Inductive Obs (X : Type) : Type :=
| ObsInstall (t : tid) (fill_fn : fill_fn_t X)
| ObsFill (t : tid) (seen : fill_fn_t X) (out : ptr) (outlen : size_t).
Arguments ObsInstall {X} t fill_fn.
Arguments ObsFill {X} t seen out outlen.

(** The slot as the two-state machine of the design. *)
Inductive SlotState (X : Type) : Type :=
| Empty
| Installed (fill : FillCode X).
Arguments Empty {X}.
Arguments Installed {X} fill.

Section Semantics.
Context {X : Type}.

(** *** Running a tree on thread [t] *)

Definition handle_pq (t : tid) (A : Type) (e : pqE A) (w : World X)
  : A * World X :=
  match e in pqE A return A * World X with
  | Load a => (load (mem (env w)) a, w)
  | Store a b =>
      (tt, mkWorld (tls_fill w)
                   (mkEnv (store (mem (env w)) a b) (gen (env w))))
  | Call_randombytes out outlen => (tt, randombytes t out outlen w)
  | Call_PQCLEAN_randombytes out outlen =>
      (tt, PQCLEAN_randombytes t out outlen w)
  end.

Definition handle_shim (t : tid) (A : Type) (e : shimE X A) (w : World X)
  : A * World X :=
  match e in shimE _ A return A * World X with
  | Pq e' => handle_pq t _ e' w
  | Call_tt_set_randombytes fill_fn => (tt, tt_set_randombytes t fill_fn w)
  end.

Definition exec_pq {R : Type} (t : tid) : Code pqE R -> World X -> R * World X :=
  run (handle_pq t).
Definition exec {R : Type} (t : tid)
  : Code (shimE X) R -> World X -> R * World X :=
  run (handle_shim t).

(** *** What the run looks like at the slot's boundary *)

Definition observe (t : tid) (A : Type) (e : shimE X A) (w : World X)
  : list (Obs X) :=
  match e with
  | Pq (Call_randombytes out outlen)
  | Pq (Call_PQCLEAN_randombytes out outlen) =>
      [ObsFill t (tls_fill w !! t) out outlen]
  | Pq _ => []
  | Call_tt_set_randombytes fill_fn => [ObsInstall t fill_fn]
  end.

Fixpoint trace {R : Type} (t : tid) (c : Code (shimE X) R) (w : World X)
  : list (Obs X) :=
  match c with
  | Ret _ => []
  | Vis e k =>
      observe t _ e w ++
      (let '(a, w') := handle_shim t _ e w in trace t (k a) w')
  end.

Definition slot_state (w : World X) (t : tid) : SlotState X :=
  match tls_fill w !! t with
  | None => Empty
  | Some f => Installed f
  end.

(** *** falcon_shim.c *)

(** Calling into PQClean from the shim. *)
Definition call_pq {R : Type} (c : Code pqE R) : Code (shimE X) R :=
  translate (@Pq X) c.

Context `{PQClean}.

(** [int tt_falcon512_keypair_seeded(pk, sk, fill_fn)] *)
Definition tt_falcon512_keypair_seeded
    (pk sk : ptr) (fill_fn : fill_fn_t X) : Code (shimE X) int :=
  trigger (Call_tt_set_randombytes fill_fn) ;;
  call_pq (PQCLEAN_FALCON512_CLEAN_crypto_sign_keypair pk sk).

(** [int tt_falcon512_sign_seeded(sig, siglen, m, mlen, sk, fill_fn)] *)
Definition tt_falcon512_sign_seeded
    (sig siglen m : ptr) (mlen : size_t) (sk : ptr)
    (fill_fn : fill_fn_t X) : Code (shimE X) int :=
  trigger (Call_tt_set_randombytes fill_fn) ;;
  call_pq (PQCLEAN_FALCON512_CLEAN_crypto_sign_signature sig siglen m mlen sk).

(** [int tt_falcon512_verify(sig, siglen, m, mlen, pk)] *)
Definition tt_falcon512_verify
    (sig : ptr) (siglen : size_t) (m : ptr) (mlen : size_t) (pk : ptr)
  : Code (shimE X) int :=
  call_pq (PQCLEAN_FALCON512_CLEAN_crypto_sign_verify sig siglen m mlen pk).

End Semantics.

(** ** Execution contexts side by side *)

(** A context is a thread with the rest of its call still to run and the
    memory and generator it works on; contexts are independent of one
    another in everything but the slot's storage, which all of them reach
    through the same three functions.  A schedule names, step by step,
    the thread that performs its next event. *)
Record Ctx (X R : Type) : Type := mkCtx {
  code : Code (shimE X) R;
  cenv : Env X
}.
Arguments mkCtx {X R} _ _.
Arguments code {X R} _.
Arguments cenv {X R} _.

Record Pool (X R : Type) : Type := mkPool {
  slots : gmap tid (FillCode X);
  ctxs : gmap tid (Ctx X R)
}.
Arguments mkPool {X R} _ _.
Arguments slots {X R} _.
Arguments ctxs {X R} _.

Section Interleaving.
Context {X R : Type}.

Definition step (t : tid) (p : Pool X R) : Pool X R :=
  match ctxs p !! t with
  | Some (mkCtx (Vis e k) ev) =>
      let '(a, w') := handle_shim t _ e (mkWorld (slots p) ev) in
      mkPool (tls_fill w') (<[t := mkCtx (k a) (env w')]> (ctxs p))
  | _ => p
  end.

Definition run_schedule (s : list tid) (p : Pool X R) : Pool X R :=
  fold_left (fun p t => step t p) s p.

(** The part of a schedule that belongs to thread [t]. *)
Definition own_steps (t : tid) (s : list tid) : list tid :=
  filter (fun u => u = t) s.

(** What a schedule looks like at the slot's boundary. *)
Definition step_obs (t : tid) (p : Pool X R) : list (Obs X) :=
  match ctxs p !! t with
  | Some (mkCtx (Vis e k) ev) => observe t _ e (mkWorld (slots p) ev)
  | _ => []
  end.

Fixpoint pool_trace (s : list tid) (p : Pool X R) : list (Obs X) :=
  match s with
  | [] => []
  | t :: s' => step_obs t p ++ pool_trace s' (step t p)
  end.

(** The callback thread [t] holds after the observations [tr], counting
    its own installations only; [held] is what it held before them. *)
Fixpoint own_install (t : tid) (held : fill_fn_t X) (tr : list (Obs X))
  : fill_fn_t X :=
  match tr with
  | [] => held
  | ObsInstall u fill_fn :: tr' =>
      own_install t (if decide (u = t) then fill_fn else held) tr'
  | ObsFill _ _ _ _ :: tr' => own_install t held tr'
  end.

End Interleaving.

(** ** Reference notions the properties are stated against *)

Section Reference.
Context {X : Type}.

(** An entropy request answered by an explicitly passed callback, with
    no slot in between. *)
Definition serve (fill_fn : fill_fn_t X) (out : ptr) (outlen : size_t)
    (e : Env X) : Env X :=
  match fill_fn with
  | Some f => f out outlen e
  | None => mkEnv (zero_fill out outlen (mem e)) (gen e)
  end.

Definition handle_served (fill_fn : fill_fn_t X) (A : Type) (e : pqE A)
    (ev : Env X) : A * Env X :=
  match e in pqE A return A * Env X with
  | Load a => (load (mem ev) a, ev)
  | Store a b => (tt, mkEnv (store (mem ev) a b) (gen ev))
  | Call_randombytes out outlen
  | Call_PQCLEAN_randombytes out outlen => (tt, serve fill_fn out outlen ev)
  end.

(** A PQClean routine run with its entropy served by [fill_fn]. *)
Definition run_served {R : Type} (fill_fn : fill_fn_t X)
  : Code pqE R -> Env X -> R * Env X :=
  run (handle_served fill_fn).

(** Modelled from the spec: the caller-side reading of a returned status
    (status 0 is success, anything else a [SchemeError] carrying that
    status); the wrapper that performs it is not part of the two C files.
    [a] stands for the output buffers the call leaves behind. *)
Inductive Outcome (A : Type) : Type :=
| Success (a : A)
| SchemeError (status : int).

Arguments Success {A} a.
Arguments SchemeError {A} status.

Definition outcome {A : Type} (status : int) (a : A) : Outcome A :=
  if decide (status = 0%Z) then Success a else SchemeError status.

(** Code that never asks for entropy. *)
Definition is_mem_event (A : Type) (e : pqE A) : bool :=
  match e with
  | Load _ | Store _ _ => true
  | Call_randombytes _ _ | Call_PQCLEAN_randombytes _ _ => false
  end.

Fixpoint entropy_free {R : Type} (c : Code pqE R) : Prop :=
  match c with
  | Ret _ => True
  | Vis e k => is_mem_event _ e = true /\ forall a, entropy_free (k a)
  end.

(** The same code linked against the other entropy symbol. *)
Definition swap_entry (A : Type) (e : pqE A) : pqE A :=
  match e in pqE A return pqE A with
  | Call_randombytes out outlen => Call_PQCLEAN_randombytes out outlen
  | Call_PQCLEAN_randombytes out outlen => Call_randombytes out outlen
  | Load a => Load a
  | Store a b => Store a b
  end.

(** A callback that always writes zero bytes: after a request for
    [outlen] bytes at [out] each of those cells reads [00] and every other
    cell reads as before. *)
Definition writes_zeros (z : FillCode X) : Prop :=
  forall out outlen e a,
    load (mem (z out outlen e)) a =
      if (out <=? a) && (a <? out + outlen) then x00 else load (mem e) a.

(** The byte stream of a callback: what it leaves in memory on each of a
    sequence of requests, starting from generator state [x]. *)
Fixpoint answers (f : FillCode X) (x : X)
    (reqs : list (ptr * size_t * memory)) : list memory :=
  match reqs with
  | [] => []
  | (out, outlen, m) :: rest =>
      let e := f out outlen (mkEnv m x) in
      mem e :: answers f (gen e) rest
  end.

Definition same_stream (f1 : FillCode X) (x1 : X) (f2 : FillCode X) (x2 : X)
  : Prop :=
  forall reqs, answers f1 x1 reqs = answers f2 x2 reqs.

(** A run of entropy requests by thread [t], and the zero fills alone. *)
Definition fills (t : tid) (reqs : list (ptr * size_t)) (w : World X)
  : World X :=
  fold_left (fun w r => randombytes t (fst r) (snd r) w) reqs w.

Definition zero_fills (reqs : list (ptr * size_t)) (m : memory) : memory :=
  fold_left (fun m r => zero_fill (fst r) (snd r) m) reqs m.

End Reference.
Arguments Success {A} a.
Arguments SchemeError {A} status.

(** ** One thread seen through its own cell *)

Section OneCell.
Context {X : Type}.

(** The events of a caller's program answered with a single cell in place
    of the per-thread map: an installation overwrites the cell, an entropy
    request is served by what the cell holds. *)
Definition handle_cell (A : Type) (e : shimE X A)
    (c : fill_fn_t X * Env X) : A * (fill_fn_t X * Env X) :=
  match e in shimE _ A return A * (fill_fn_t X * Env X) with
  | Pq e' =>
      let '(a, ev) := handle_served (fst c) _ e' (snd c) in (a, (fst c, ev))
  | Call_tt_set_randombytes fill_fn => (tt, (fill_fn, snd c))
  end.

Definition run_cell {R : Type}
  : Code (shimE X) R -> fill_fn_t X * Env X -> R * (fill_fn_t X * Env X) :=
  run handle_cell.

End OneCell.

(** ** A small concrete instance

    A stand-in PQClean library and a few callbacks over a counter, on
    which the statements below are exercised. *)
Module Toy.

(** [memset(out, b, n)] *)
Fixpoint memset (n : nat) (out : ptr) (b : byte) (m : memory) : memory :=
  match n with
  | O => m
  | S n' => store (memset n' out b m) (out + N.of_nat n') b
  end.

(** Writes [01] on even calls and [02] on odd ones; the counter advances
    by [stride] per call. *)
Definition parity_fill (stride : nat) : FillCode nat :=
  fun out outlen e =>
    mkEnv (memset (N.to_nat outlen) out
                  (if Nat.even (gen e) then x01 else x02) (mem e))
          (gen e + stride)%nat.

(** [memset(out, 0, outlen)], counting its calls. *)
Definition counting_zero_fill : FillCode nat :=
  fun out outlen e =>
    mkEnv (memset (N.to_nat outlen) out x00 (mem e)) (S (gen e)).

(** Two random bytes become the two keys; all-zero entropy is refused. *)
Definition keypair (pk sk : ptr) : Code pqE int :=
  trigger (Call_randombytes 1000 2) ;;
  b0 ← trigger (Load 1000);
  b1 ← trigger (Load 1001);
  trigger (Store pk b0) ;;
  trigger (Store sk b1) ;;
  Ret (if Byte.eqb b0 x00 then (-1)%Z else 0%Z).

(** A three-byte signature: first message byte, key byte, one nonce. *)
Definition signature (sig siglen m : ptr) (mlen : size_t) (sk : ptr)
  : Code pqE int :=
  trigger (Call_PQCLEAN_randombytes 1000 1) ;;
  r ← trigger (Load 1000);
  c ← trigger (Load m);
  k ← trigger (Load sk);
  trigger (Store sig c) ;;
  trigger (Store (sig + 1) k) ;;
  trigger (Store (sig + 2) r) ;;
  trigger (Store siglen x03) ;;
  Ret (if Byte.eqb k x00 then (-1)%Z else 0%Z).

Definition verify (sig : ptr) (siglen : size_t) (m : ptr) (mlen : size_t)
    (pk : ptr) : Code pqE int :=
  s ← trigger (Load sig);
  c ← trigger (Load m);
  Ret (if Byte.eqb s c then 0%Z else (-1)%Z).

Definition lib : PQClean := {|
  PQCLEAN_FALCON512_CLEAN_crypto_sign_keypair := keypair;
  PQCLEAN_FALCON512_CLEAN_crypto_sign_signature := signature;
  PQCLEAN_FALCON512_CLEAN_crypto_sign_verify := verify
|}.

(** A fresh process: no thread has installed anything, memory holds the
    message [68] at address 10 and a key byte at 20. *)
Definition mem0 : memory := <[10 := x68]> (<[20 := x07]> ∅).
Definition w0 : World nat := mkWorld ∅ (mkEnv mem0 0%nat).

(** Thread 0 has a callback installed. *)
Definition w1 : World nat := tt_set_randombytes 0%nat (Some (parity_fill 1)) w0.

(** Two contexts, each about to generate a key pair with its own source. *)
Definition pool0 : Pool nat int := mkPool ∅
  (<[0%nat := mkCtx (tt_falcon512_keypair_seeded (H := lib) 100 200 (Some (parity_fill 1)))
                    (mkEnv mem0 0%nat)]>
   (<[1%nat := mkCtx (tt_falcon512_keypair_seeded (H := lib) 100 200 (Some (parity_fill 2)))
                     (mkEnv mem0 1%nat)]> ∅)).

(** The first of the two on its own. *)
Definition solo0 : Pool nat int := mkPool ∅
  (<[0%nat := mkCtx (tt_falcon512_keypair_seeded (H := lib) 100 200 (Some (parity_fill 1)))
                    (mkEnv mem0 0%nat)]> ∅).

(** A verification routine that breaks the collaborator contract: it asks
    for a byte of entropy and reports whether it was non-zero. *)
Definition peeking_verify (sig : ptr) (siglen : size_t) (m : ptr)
    (mlen : size_t) (pk : ptr) : Code pqE int :=
  trigger (Call_randombytes 1000 1) ;;
  b ← trigger (Load 1000);
  Ret (if Byte.eqb b x00 then (-1)%Z else 0%Z).

Definition peeking_lib : PQClean := {|
  PQCLEAN_FALCON512_CLEAN_crypto_sign_keypair := keypair;
  PQCLEAN_FALCON512_CLEAN_crypto_sign_signature := signature;
  PQCLEAN_FALCON512_CLEAN_crypto_sign_verify := peeking_verify
|}.

(** A library whose key generation and signing ask for no entropy: fixed
    key bytes, and a signature that copies the message byte. *)
Definition quiet_keypair (pk sk : ptr) : Code pqE int :=
  trigger (Store pk x2a) ;;
  trigger (Store sk x2b) ;;
  Ret 0%Z.

Definition quiet_signature (sig siglen m : ptr) (mlen : size_t) (sk : ptr)
  : Code pqE int :=
  c ← trigger (Load m);
  trigger (Store sig c) ;;
  trigger (Store siglen x01) ;;
  Ret 0%Z.

Definition quiet_lib : PQClean := {|
  PQCLEAN_FALCON512_CLEAN_crypto_sign_keypair := quiet_keypair;
  PQCLEAN_FALCON512_CLEAN_crypto_sign_signature := quiet_signature;
  PQCLEAN_FALCON512_CLEAN_crypto_sign_verify := verify
|}.

(** The two contexts' steps interleaved, and one context after the other. *)
Definition interleaved : list tid := [0; 1; 0; 1; 1; 0; 0; 1; 1; 0; 0; 1]%nat.
Definition sequential : list tid := [0; 0; 0; 0; 0; 0; 1; 1; 1; 1; 1; 1]%nat.

End Toy.

(** * Properties *)

(** ** The concrete instance, run *)

(** Key generation with the parity source: status 0, both key cells [01],
    the generator advanced once, the source left in the slot. *)
Example toy_keypair_run :
  let r := exec 0%nat (tt_falcon512_keypair_seeded (H := Toy.lib) 100 200
                         (Some (Toy.parity_fill 1))) Toy.w0 in
  fst r = 0%Z /\
  load (mem (env (snd r))) 100 = x01 /\
  load (mem (env (snd r))) 200 = x01 /\
  gen (env (snd r)) = 1%nat /\
  slot_state (snd r) 0%nat = Installed (Toy.parity_fill 1) /\
  slot_state (snd r) 1%nat = Empty.
Proof. vm_compute. done. Qed.

(** Signing the message at 10 with the key at 20, then verifying it. *)
Example toy_sign_verify_run :
  let r := exec 0%nat (tt_falcon512_sign_seeded (H := Toy.lib) 300 400 10 1 20
                         (Some (Toy.parity_fill 1))) Toy.w0 in
  fst r = 0%Z /\
  load (mem (env (snd r))) 300 = x68 /\
  load (mem (env (snd r))) 301 = x07 /\
  load (mem (env (snd r))) 302 = x01 /\
  load (mem (env (snd r))) 400 = x03 /\
  fst (exec 0%nat (tt_falcon512_verify (H := Toy.lib) 300 3 10 1 0) (snd r)) = 0%Z /\
  fst (exec 0%nat (tt_falcon512_verify (H := Toy.lib) 300 3 20 1 0) (snd r)) = (-1)%Z.
Proof. vm_compute. done. Qed.

(** The boundary of a key generation started on a slot that still holds
    an older source. *)
Example toy_keypair_trace :
  trace 0%nat (tt_falcon512_keypair_seeded (H := Toy.lib) 100 200
                 (Some (Toy.parity_fill 3))) Toy.w1 =
    [ObsInstall 0%nat (Some (Toy.parity_fill 3));
     ObsFill 0%nat (Some (Toy.parity_fill 3)) 1000 2].
Proof. reflexivity. Qed.

(** ** Memory and the zero-fill loop *)

Lemma load_store (m : memory) (a a' : ptr) (b : byte) :
  load (store m a b) a' = if decide (a = a') then b else load m a'.
Proof.
  unfold load, store. rewrite lookup_insert. by case_decide.
Qed.

(** With fuel for the iterations still due, the loop zeroes exactly the
    cells [out + i .. out + outlen - 1]. *)
Lemma load_zero_loop (fuel : nat) (out : ptr) (i outlen : size_t)
    (m : memory) (a : ptr) :
  (N.to_nat (outlen - i) <= fuel)%nat ->
  load (zero_loop fuel out i outlen m) a =
    if (out + i <=? a) && (a <? out + outlen) then x00 else load m a.
Proof.
  revert i m. induction fuel as [|fuel IH]; intros i m Hfuel; simpl.
  - destruct (N.leb_spec (out + i) a), (N.ltb_spec a (out + outlen));
      simpl; try reflexivity; lia.
  - destruct (N.ltb_spec i outlen) as [Hlt|Hge].
    + rewrite IH by lia. rewrite load_store.
      destruct (N.leb_spec (out + N.succ i) a),
               (N.leb_spec (out + i) a),
               (N.ltb_spec a (out + outlen));
        simpl; repeat case_decide; try reflexivity; lia.
    + destruct (N.leb_spec (out + i) a), (N.ltb_spec a (out + outlen));
        simpl; try reflexivity; lia.
Qed.

Lemma load_zero_fill (out : ptr) (outlen : size_t) (m : memory) (a : ptr) :
  load (zero_fill out outlen m) a =
    if (out <=? a) && (a <? out + outlen) then x00 else load m a.
Proof.
  unfold zero_fill. rewrite load_zero_loop by lia.
  by rewrite N.add_0_r.
Qed.

(** More fuel than the loop needs changes nothing: the guard ends it. *)
Lemma zero_loop_fuel (fuel fuel' : nat) (out : ptr) (i outlen : size_t)
    (m : memory) :
  (N.to_nat (outlen - i) <= fuel)%nat ->
  (N.to_nat (outlen - i) <= fuel')%nat ->
  zero_loop fuel out i outlen m = zero_loop fuel' out i outlen m.
Proof.
  revert fuel' i m. induction fuel as [|fuel IH]; intros fuel' i m H1 H2.
  - destruct fuel' as [|fuel']; simpl; [reflexivity|].
    destruct (N.ltb_spec i outlen); [lia | reflexivity].
  - destruct fuel' as [|fuel']; simpl.
    + destruct (N.ltb_spec i outlen); [lia | reflexivity].
    + destruct (N.ltb_spec i outlen); [|reflexivity].
      apply IH; lia.
Qed.

(** ** Trees *)

Section TreeFacts.
Context {St : Type} {E : Type -> Type}.

Lemma run_bind {R T : Type} (h : forall A, E A -> St -> A * St)
    (c : Code E R) (f : R -> Code E T) (s : St) :
  run h (bind c f) s = let '(r, s') := run h c s in run h (f r) s'.
Proof.
  revert s. induction c as [r|A e k IH]; intros s; simpl.
  - reflexivity.
  - destruct (h A e s) as [a s']. apply IH.
Qed.

Lemma run_translate {F : Type -> Type} {R : Type}
    (g : forall A, F A -> E A) (h : forall A, E A -> St -> A * St)
    (c : Code F R) (s : St) :
  run h (translate g c) s = run (fun A e => h A (g A e)) c s.
Proof.
  revert s. induction c as [r|A e k IH]; intros s; simpl.
  - reflexivity.
  - destruct (h A (g A e) s) as [a s']. apply IH.
Qed.

Lemma run_ext {R : Type} (h h' : forall A, E A -> St -> A * St)
    (c : Code E R) (s : St) :
  (forall A e s, h A e s = h' A e s) -> run h c s = run h' c s.
Proof.
  intros Hh. revert s. induction c as [r|A e k IH]; intros s; simpl.
  - reflexivity.
  - rewrite Hh. destruct (h' A e s) as [a s']. apply IH.
Qed.

End TreeFacts.

(** ** The slot seen from PQClean code *)

Section SlotFacts.
Context {X : Type}.
Implicit Types (w : World X) (t : tid).

Lemma world_eta w : mkWorld (tls_fill w) (env w) = w.
Proof. by destruct w. Qed.

Lemma env_eta (e : Env X) : mkEnv (mem e) (gen e) = e.
Proof. by destruct e. Qed.

(** [randombytes] is the slot's content applied to the request. *)
Lemma randombytes_serve t out outlen w :
  randombytes t out outlen w =
    mkWorld (tls_fill w) (serve (tls_fill w !! t) out outlen (env w)).
Proof. unfold randombytes, serve. by destruct (tls_fill w !! t). Qed.

(** One PQClean event: the slot is left as it was, and the answer and
    the new environment are those of the slot's content served directly. *)
Lemma handle_pq_served t (A : Type) (e : pqE A) w :
  handle_pq t A e w =
    let '(a, ev) := handle_served (tls_fill w !! t) A e (env w) in
    (a, mkWorld (tls_fill w) ev).
Proof.
  destruct e; simpl.
  - by rewrite world_eta.
  - reflexivity.
  - by rewrite randombytes_serve.
  - unfold PQCLEAN_randombytes. by rewrite randombytes_serve.
Qed.

(** A whole PQClean routine: likewise. *)
Lemma exec_pq_served {R : Type} t (c : Code pqE R) w :
  exec_pq t c w =
    let '(r, ev) := run_served (tls_fill w !! t) c (env w) in
    (r, mkWorld (tls_fill w) ev).
Proof.
  unfold exec_pq, run_served. revert w.
  induction c as [r|A e k IH]; intros w; simpl.
  - by rewrite world_eta.
  - rewrite handle_pq_served.
    destruct (handle_served (tls_fill w !! t) A e (env w)) as [a ev].
    by rewrite IH.
Qed.

Lemma exec_call_pq {R : Type} t (c : Code pqE R) w :
  exec t (call_pq c) w = exec_pq t c w.
Proof. unfold exec, call_pq, exec_pq. by rewrite run_translate. Qed.

Lemma exec_pq_tls {R : Type} t (c : Code pqE R) w :
  tls_fill (snd (exec_pq t c w)) = tls_fill w.
Proof.
  rewrite exec_pq_served.
  by destruct (run_served (tls_fill w !! t) c (env w)).
Qed.

(** The slot right after an installation by the same thread. *)
Lemma set_lookup t (fill_fn : fill_fn_t X) w :
  tls_fill (tt_set_randombytes t fill_fn w) !! t = fill_fn.
Proof. simpl. by rewrite lookup_partial_alter, decide_True. Qed.

Lemma set_lookup_ne t t' (fill_fn : fill_fn_t X) w :
  t <> t' -> tls_fill (tt_set_randombytes t fill_fn w) !! t' = tls_fill w !! t'.
Proof. intros. simpl. by rewrite lookup_partial_alter, decide_False. Qed.

End SlotFacts.

(** ** The entropy callback *)

(** C1.  [randombytes] hands the request [(out, outlen)], unchanged, to the
    callback installed for the calling thread and does nothing else; with no
    callback installed it zeroes exactly the [outlen] cells from [out] on and
    leaves every other cell, the generator state and the slot as they were,
    so its effect is a function of the request alone. *)
Theorem randombytes_installed_or_zero {X : Type}
    (t : tid) (out : ptr) (outlen : size_t) (w : World X) :
  (forall f, tls_fill w !! t = Some f ->
     randombytes t out outlen w = mkWorld (tls_fill w) (f out outlen (env w))) /\
  (tls_fill w !! t = None ->
     tls_fill (randombytes t out outlen w) = tls_fill w /\
     gen (env (randombytes t out outlen w)) = gen (env w) /\
     forall a,
       load (mem (env (randombytes t out outlen w))) a =
         if (out <=? a) && (a <? out + outlen) then x00
         else load (mem (env w)) a).
Proof.
  split.
  - intros f Hf. unfold randombytes. by rewrite Hf.
  - intros Hnone. unfold randombytes. rewrite Hnone. simpl.
    repeat split. intros a. apply load_zero_fill.
Qed.

Lemma randombytes_installed_or_zero_witness :
  randombytes 0%nat 100 3 Toy.w1 =
    mkWorld (tls_fill Toy.w1) (Toy.parity_fill 1 100 3 (env Toy.w1)) /\
  load (mem (env (randombytes 0%nat 100 3 Toy.w0))) 102 = x00 /\
  load (mem (env (randombytes 0%nat 100 3 Toy.w0))) 10 = x68.
Proof.
  split; [|split].
  - apply (proj1 (randombytes_installed_or_zero 0%nat 100 3 Toy.w1)).
    apply (set_lookup 0%nat (Some (Toy.parity_fill 1)) Toy.w0).
  - apply (proj2 (randombytes_installed_or_zero 0%nat 100 3 Toy.w0)).
    reflexivity.
  - apply (proj2 (randombytes_installed_or_zero 0%nat 100 3 Toy.w0)).
    reflexivity.
Defined.

(** ** The two entry points *)

Lemma exec_pq_swap {X R : Type} (t : tid) (c : Code pqE R) (w : World X) :
  exec_pq t (translate swap_entry c) w = exec_pq t c w.
Proof.
  unfold exec_pq. rewrite run_translate. apply run_ext.
  intros A e s. by destruct e.
Qed.

(** C9.  [PQCLEAN_randombytes] does to the world exactly what [randombytes]
    does, so a PQClean routine linked against one symbol runs as the same
    routine linked against the other. *)
Theorem PQCLEAN_randombytes_same {X : Type}
    (t : tid) (out : ptr) (outlen : size_t) (w : World X) :
  PQCLEAN_randombytes t out outlen w = randombytes t out outlen w /\
  handle_pq t _ (Call_PQCLEAN_randombytes out outlen) w =
    handle_pq t _ (Call_randombytes out outlen) w /\
  forall (R : Type) (c : Code pqE R),
    exec_pq t (translate swap_entry c) w = exec_pq t c w.
Proof.
  split; [reflexivity|]. split; [reflexivity|].
  intros R c. apply exec_pq_swap.
Qed.

(** ** Clearing the slot *)

Lemma fills_empty {X : Type} (t : tid) (reqs : list (ptr * size_t))
    (w : World X) :
  tls_fill w !! t = None ->
  fills t reqs w =
    mkWorld (tls_fill w) (mkEnv (zero_fills reqs (mem (env w))) (gen (env w))).
Proof.
  revert w. induction reqs as [|[out outlen] reqs IH]; intros w Hnone.
  - simpl. by rewrite env_eta, world_eta.
  - unfold fills, zero_fills in *. simpl.
    rewrite IH.
    + unfold randombytes. by rewrite Hnone.
    + unfold randombytes. by rewrite Hnone.
Qed.

(** C10.  After [tt_set_randombytes(0)] the calling thread's slot is empty,
    whatever was installed before: every later [randombytes] of that thread
    zeroes its buffer and nothing else, for as many requests as follow. *)
Theorem set_null_clears {X : Type}
    (t : tid) (w : World X) (reqs : list (ptr * size_t)) :
  let cleared := tt_set_randombytes t None w in
  slot_state cleared t = Empty /\
  fills t reqs cleared =
    mkWorld (tls_fill cleared)
            (mkEnv (zero_fills reqs (mem (env w))) (gen (env w))) /\
  forall out outlen a,
    load (mem (env (randombytes t out outlen (fills t reqs cleared)))) a =
      if (out <=? a) && (a <? out + outlen) then x00
      else load (zero_fills reqs (mem (env w))) a.
Proof.
  intros cleared.
  assert (Hnone : tls_fill cleared !! t = None) by apply set_lookup.
  split; [|split].
  - unfold slot_state. by rewrite Hnone.
  - by rewrite fills_empty.
  - intros out outlen a. rewrite fills_empty by done.
    unfold randombytes. cbn [tls_fill env mem gen]. rewrite Hnone.
    cbn [tls_fill env mem gen]. apply load_zero_fill.
Qed.

(** ** The slot as a state machine *)

Section Wrappers.
Context {X : Type} `{PQClean}.
Implicit Types (w : World X) (t : tid) (fill_fn : fill_fn_t X).

Lemma exec_set_then {R : Type} t fill_fn (c : Code (shimE X) R) w :
  exec t (trigger (Call_tt_set_randombytes fill_fn) ;; c) w =
    exec t c (tt_set_randombytes t fill_fn w).
Proof. reflexivity. Qed.

Lemma exec_keypair_seeded t pk sk fill_fn w :
  exec t (tt_falcon512_keypair_seeded pk sk fill_fn) w =
    exec_pq t (PQCLEAN_FALCON512_CLEAN_crypto_sign_keypair pk sk)
            (tt_set_randombytes t fill_fn w).
Proof.
  unfold tt_falcon512_keypair_seeded.
  by rewrite exec_set_then, exec_call_pq.
Qed.

Lemma exec_sign_seeded t sig siglen m mlen sk fill_fn w :
  exec t (tt_falcon512_sign_seeded sig siglen m mlen sk fill_fn) w =
    exec_pq t
      (PQCLEAN_FALCON512_CLEAN_crypto_sign_signature sig siglen m mlen sk)
      (tt_set_randombytes t fill_fn w).
Proof.
  unfold tt_falcon512_sign_seeded.
  by rewrite exec_set_then, exec_call_pq.
Qed.

Lemma exec_verify t sig siglen m mlen pk w :
  exec t (tt_falcon512_verify sig siglen m mlen pk) w =
    exec_pq t (PQCLEAN_FALCON512_CLEAN_crypto_sign_verify sig siglen m mlen pk) w.
Proof. apply exec_call_pq. Qed.

(** A seeded call is PQClean run with its entropy served by the caller's
    callback, and leaves that callback in the slot. *)
Lemma exec_seeded_served {R : Type} t fill_fn (c : Code pqE R) w :
  exec_pq t c (tt_set_randombytes t fill_fn w) =
    let '(r, ev) := run_served fill_fn c (env w) in
    (r, mkWorld (tls_fill (tt_set_randombytes t fill_fn w)) ev).
Proof. rewrite exec_pq_served. by rewrite set_lookup. Qed.

End Wrappers.

(** C3, as the code has it.  [tt_set_randombytes] is total and leaves the
    calling thread's slot in the state its argument names, whatever the slot
    held: [Installed fill] for a callback, [Empty] for the null pointer, and
    nothing in between; a second installation replaces the first without
    trace; the environment and every other thread's slot are untouched; and
    a slot is [Empty] or holds exactly one callback, before and after. *)
Theorem slot_state_machine {X : Type} `{PQClean}
    (t : tid) (fill_fn : fill_fn_t X) (w : World X) :
  slot_state (tt_set_randombytes t fill_fn w) t =
    match fill_fn with Some f => Installed f | None => Empty end /\
  (forall old,
     tt_set_randombytes t fill_fn (tt_set_randombytes t old w) =
       tt_set_randombytes t fill_fn w) /\
  env (tt_set_randombytes t fill_fn w) = env w /\
  (forall t',
     slot_state (tt_set_randombytes t fill_fn w) t' =
       if decide (t = t') then slot_state (tt_set_randombytes t fill_fn w) t
       else slot_state w t') /\
  (forall t',
     let after := slot_state (tt_set_randombytes t fill_fn w) t' in
     (slot_state w t' = Empty \/ exists! f, slot_state w t' = Installed f) /\
     (after = Empty \/ exists! f, after = Installed f)).
Proof.
  assert (Hone : forall (w' : World X) t',
    slot_state w' t' = Empty \/ exists! f, slot_state w' t' = Installed f).
  { intros w' t'. unfold slot_state.
    destruct (tls_fill w' !! t') as [f|]; [right|by left].
    exists f. split; [done|]. by intros g [= ->]. }
  repeat apply conj.
  - unfold slot_state. rewrite set_lookup. by destruct fill_fn.
  - intros old. unfold tt_set_randombytes. simpl.
    by rewrite partial_alter_partial_alter_eq.
  - reflexivity.
  - intros t'. case_decide as Ht; [by subst|].
    unfold slot_state. by rewrite set_lookup_ne.
  - intros t'. split; apply Hone.
Qed.

(** C3, as worded, fails: installing the null pointer takes a slot that
    holds a callback to [Empty], a transition the claim rules out. *)
Lemma set_always_installs_counterexample :
  ~ (forall (t : tid) (fill_fn : fill_fn_t nat) (w : World nat),
       exists f, slot_state (tt_set_randombytes t fill_fn w) t = Installed f).
Proof.
  intros Hclaim.
  destruct (Hclaim 0%nat None Toy.w1) as [f Hf].
  unfold slot_state in Hf. rewrite set_lookup in Hf. discriminate.
Qed.

(** The transition itself, on the concrete world: [Installed] before,
    [Empty] after. *)
Example set_null_from_installed :
  slot_state Toy.w1 0%nat = Installed (Toy.parity_fill 1) /\
  slot_state (tt_set_randombytes 0%nat None Toy.w1) 0%nat = Empty.
Proof.
  unfold slot_state. split.
  - unfold Toy.w1. by rewrite set_lookup.
  - by rewrite set_lookup.
Qed.

(** ** Installation comes first *)

Lemma trace_call_pq {X R : Type} (t : tid) (c : Code pqE R) (w : World X) :
  Forall (fun o => exists out outlen, o = ObsFill t (tls_fill w !! t) out outlen)
         (trace t (call_pq c) w).
Proof.
  unfold call_pq. revert w. induction c as [r|A e k IH]; intros w; simpl.
  - constructor.
  - apply Forall_app. split.
    + destruct e; simpl; repeat constructor; eauto.
    + rewrite handle_pq_served.
      destruct (handle_served (tls_fill w !! t) A e (env w)) as [a ev].
      apply (IH a (mkWorld (tls_fill w) ev)).
Qed.

(** What PQClean code shows at the boundary is decided by the calling
    thread's own cell and the environment. *)
Lemma trace_call_pq_local {X R : Type} (t : tid) (c : Code pqE R)
    (w w' : World X) :
  tls_fill w !! t = tls_fill w' !! t ->
  env w = env w' ->
  trace t (call_pq c) w = trace t (call_pq c) w'.
Proof.
  unfold call_pq. revert w w'.
  induction c as [r|A e k IH]; intros w w' Hslot Henv; simpl.
  - reflexivity.
  - f_equal.
    + destruct e; simpl; by rewrite ?Hslot.
    + rewrite !handle_pq_served, <- Hslot, <- Henv.
      destruct (handle_served (tls_fill w !! t) A e (env w)) as [a ev].
      by apply IH.
Qed.

Section Boundary.
Context {X : Type}.
Implicit Types (w : World X) (t : tid) (fill_fn : fill_fn_t X).

(** The boundary of "install, then call PQClean". *)
Lemma seeded_boundary {R : Type} t fill_fn (c : Code pqE R) w :
  let call := trigger (Call_tt_set_randombytes fill_fn) ;; call_pq c in
  (exists rest,
     trace t call w = ObsInstall t fill_fn :: rest /\
     Forall (fun o => exists seen out outlen, o = ObsFill t seen out outlen)
            rest /\
     (rest = [] \/
      exists out outlen rest', rest = ObsFill t fill_fn out outlen :: rest')) /\
  (forall slots',
     trace t call (mkWorld slots' (env w)) = trace t call w /\
     fst (exec t call (mkWorld slots' (env w))) = fst (exec t call w) /\
     env (snd (exec t call (mkWorld slots' (env w)))) =
       env (snd (exec t call w))).
Proof.
  intros call. subst call. split.
  - pose proof (trace_call_pq t c (tt_set_randombytes t fill_fn w)) as Hfills.
    rewrite set_lookup in Hfills.
    exists (trace t (call_pq c) (tt_set_randombytes t fill_fn w)).
    split; [reflexivity|]. split.
    + eapply Forall_impl; [exact Hfills|].
      intros o (out & outlen & ->). eauto.
    + destruct Hfills as [|o rest (out & outlen & ->) _]; [by left|].
      right. eauto.
  - intros slots'. repeat apply conj.
    + change (ObsInstall t fill_fn ::
                trace t (call_pq c)
                  (tt_set_randombytes t fill_fn (mkWorld slots' (env w))) =
              ObsInstall t fill_fn ::
                trace t (call_pq c) (tt_set_randombytes t fill_fn w)).
      f_equal. apply trace_call_pq_local; [|reflexivity].
      by rewrite !set_lookup.
    + rewrite !exec_set_then, !exec_call_pq, !exec_seeded_served. simpl.
      by destruct (run_served fill_fn c (env w)).
    + rewrite !exec_set_then, !exec_call_pq, !exec_seeded_served. simpl.
      by destruct (run_served fill_fn c (env w)).
Qed.

End Boundary.

(** C2.  Seen at the slot's boundary, a seeded call starts with the
    installation of the caller's callback; what follows are entropy
    requests only, and the first of them finds exactly that callback in
    the slot.  Whatever earlier calls left in the slots, the boundary, the
    status and the memory of the call are the same: nothing left behind is
    ever seen. *)
Theorem install_before_first_fill {X : Type} `{PQClean}
    (t : tid) (fill_fn : fill_fn_t X) (w : World X) :
  (forall pk sk,
     let call := tt_falcon512_keypair_seeded pk sk fill_fn in
     (exists rest,
        trace t call w = ObsInstall t fill_fn :: rest /\
        Forall (fun o => exists seen out outlen, o = ObsFill t seen out outlen)
               rest /\
        (rest = [] \/
         exists out outlen rest',
           rest = ObsFill t fill_fn out outlen :: rest')) /\
     (forall slots',
        trace t call (mkWorld slots' (env w)) = trace t call w /\
        fst (exec t call (mkWorld slots' (env w))) = fst (exec t call w) /\
        env (snd (exec t call (mkWorld slots' (env w)))) =
          env (snd (exec t call w)))) /\
  (forall sig siglen m mlen sk,
     let call := tt_falcon512_sign_seeded sig siglen m mlen sk fill_fn in
     (exists rest,
        trace t call w = ObsInstall t fill_fn :: rest /\
        Forall (fun o => exists seen out outlen, o = ObsFill t seen out outlen)
               rest /\
        (rest = [] \/
         exists out outlen rest',
           rest = ObsFill t fill_fn out outlen :: rest')) /\
     (forall slots',
        trace t call (mkWorld slots' (env w)) = trace t call w /\
        fst (exec t call (mkWorld slots' (env w))) = fst (exec t call w) /\
        env (snd (exec t call (mkWorld slots' (env w)))) =
          env (snd (exec t call w)))).
Proof.
  split.
  - intros pk sk.
    apply (seeded_boundary t fill_fn
             (PQCLEAN_FALCON512_CLEAN_crypto_sign_keypair pk sk) w).
  - intros sig siglen m mlen sk.
    apply (seeded_boundary t fill_fn
             (PQCLEAN_FALCON512_CLEAN_crypto_sign_signature
                sig siglen m mlen sk) w).
Qed.

(** ** Status and outputs pass through *)

(** C4.  A seeded call returns the status PQClean reports when its entropy
    is served by the caller's callback, and leaves memory (hence the key
    pair, or the signature and the length stored through [siglen]) exactly
    as PQClean left it; read as an outcome, the call is a [SchemeError]
    precisely when that status is not zero, and carries that very status. *)
Theorem seeded_status_propagated {X : Type} `{PQClean}
    (t : tid) (fill_fn : fill_fn_t X) (w : World X) :
  (forall pk sk,
     let opaque :=
       run_served fill_fn
         (PQCLEAN_FALCON512_CLEAN_crypto_sign_keypair pk sk) (env w) in
     let shim := exec t (tt_falcon512_keypair_seeded pk sk fill_fn) w in
     fst shim = fst opaque /\
     env (snd shim) = snd opaque /\
     (forall s,
        outcome (fst shim) (mem (env (snd shim))) = SchemeError s <->
        fst opaque = s /\ s <> 0%Z) /\
     (fst opaque = 0%Z ->
        outcome (fst shim) (mem (env (snd shim))) =
          Success (mem (snd opaque)))) /\
  (forall sig siglen m mlen sk,
     let opaque :=
       run_served fill_fn
         (PQCLEAN_FALCON512_CLEAN_crypto_sign_signature sig siglen m mlen sk)
         (env w) in
     let shim :=
       exec t (tt_falcon512_sign_seeded sig siglen m mlen sk fill_fn) w in
     fst shim = fst opaque /\
     env (snd shim) = snd opaque /\
     (forall s,
        outcome (fst shim) (mem (env (snd shim))) = SchemeError s <->
        fst opaque = s /\ s <> 0%Z) /\
     (fst opaque = 0%Z ->
        outcome (fst shim) (mem (env (snd shim))) =
          Success (mem (snd opaque)))).
Proof.
  assert (Hread : forall (status : int) (m : memory),
    (forall s, outcome status m = SchemeError s <-> status = s /\ s <> 0%Z) /\
    (status = 0%Z -> outcome status m = Success m)).
  { intros status m. unfold outcome. split.
    - intros s. case_decide; split.
      + discriminate.
      + intros [-> ?]. done.
      + intros [= <-]. done.
      + intros [-> _]. done.
    - intros ->. by rewrite decide_True. }
  split.
  - intros pk sk opaque shim. subst opaque shim.
    rewrite exec_keypair_seeded, exec_seeded_served.
    destruct (run_served fill_fn _ (env w)) as [r ev]. simpl.
    split; [done|]. split; [done|]. apply Hread.
  - intros sig siglen m mlen sk opaque shim. subst opaque shim.
    rewrite exec_sign_seeded, exec_seeded_served.
    destruct (run_served fill_fn _ (env w)) as [r ev]. simpl.
    split; [done|]. split; [done|]. apply Hread.
Qed.

Lemma seeded_status_propagated_witness :
  let shim :=
    exec 0%nat (tt_falcon512_keypair_seeded (H := Toy.lib) 100 200 None) Toy.w1 in
  let shim' :=
    exec 0%nat
      (tt_falcon512_sign_seeded (H := Toy.lib) 300 400 10 1 20
         (Some (Toy.parity_fill 1))) Toy.w0 in
  outcome (fst shim) (mem (env (snd shim))) = SchemeError (-1)%Z /\
  outcome (fst shim') (mem (env (snd shim'))) =
    Success (mem (snd (run_served (Some (Toy.parity_fill 1))
                         (Toy.signature 300 400 10 1 20) (env Toy.w0)))).
Proof.
  split.
  - destruct (proj1 (seeded_status_propagated (H := Toy.lib)
                       0%nat None Toy.w1) 100 200) as (_ & _ & Herr & _).
    apply Herr. split; [vm_compute; reflexivity | discriminate].
  - destruct (proj2 (seeded_status_propagated (H := Toy.lib)
                       0%nat (Some (Toy.parity_fill 1)) Toy.w0)
                    300 400 10 1 20) as (_ & _ & _ & Hok).
    apply Hok. vm_compute. reflexivity.
Defined.

(** ** Verification and the slot *)

Lemma run_served_entropy_free {X R : Type}
    (f f' : fill_fn_t X) (c : Code pqE R) (ev : Env X) :
  entropy_free c -> run_served f c ev = run_served f' c ev.
Proof.
  unfold run_served. revert ev.
  induction c as [r|A e k IH]; intros ev Hfree; simpl.
  - reflexivity.
  - destruct Hfree as [He Hk].
    destruct e; simpl in He; try discriminate; simpl; by apply IH.
Qed.

(** C5.  [tt_falcon512_verify] returns exactly what PQClean's verification
    returns, as an ordinary status, and leaves every thread's slot as it
    found it; and since that routine asks for no entropy, neither the
    status nor the memory it leaves depends on what any slot holds. *)
Theorem verify_leaves_slot {X : Type} `{PQClean}
    (t : tid) (sig : ptr) (siglen : size_t) (m : ptr) (mlen : size_t)
    (pk : ptr) (w : World X) :
  let opaque := PQCLEAN_FALCON512_CLEAN_crypto_sign_verify sig siglen m mlen pk in
  let shim := exec t (tt_falcon512_verify sig siglen m mlen pk) in
  tls_fill (snd (shim w)) = tls_fill w /\
  shim w = exec_pq t opaque w /\
  (entropy_free opaque ->
   forall slots',
     shim (mkWorld slots' (env w)) =
       (fst (shim w), mkWorld slots' (env (snd (shim w))))).
Proof.
  intros opaque shim. subst shim. repeat apply conj.
  - rewrite exec_verify. apply exec_pq_tls.
  - apply exec_verify.
  - intros Hfree slots'. rewrite !exec_verify, !exec_pq_served. simpl.
    fold opaque.
    rewrite (run_served_entropy_free (slots' !! t) (tls_fill w !! t))
      by exact Hfree.
    by destruct (run_served (tls_fill w !! t) opaque (env w)).
Qed.

(** The premise on the routine is needed: one that does ask for entropy
    returns different statuses on an empty and on a filled slot. *)
Example verify_contract_needed :
  fst (exec 0%nat (tt_falcon512_verify (H := Toy.peeking_lib) 10 1 10 1 0)
            Toy.w0) = (-1)%Z /\
  fst (exec 0%nat (tt_falcon512_verify (H := Toy.peeking_lib) 10 1 10 1 0)
            Toy.w1) = 0%Z.
Proof. vm_compute. done. Qed.

Lemma verify_leaves_slot_witness :
  exec 0%nat (tt_falcon512_verify (H := Toy.lib) 10 1 10 1 0)
       (mkWorld ∅ (env Toy.w1)) =
    (fst (exec 0%nat (tt_falcon512_verify (H := Toy.lib) 10 1 10 1 0) Toy.w1),
     mkWorld ∅
       (env (snd (exec 0%nat (tt_falcon512_verify (H := Toy.lib) 10 1 10 1 0)
                       Toy.w1)))).
Proof.
  apply (proj2 (proj2 (verify_leaves_slot (H := Toy.lib)
                         0%nat 10 1 10 1 0 Toy.w1))).
  simpl. repeat split.
Defined.

(** ** The empty slot against a zero-writing callback *)

Lemma run_served_zero {X R : Type} (z : FillCode X) (c : Code pqE R)
    (e1 e2 : Env X) :
  writes_zeros z ->
  (forall a, load (mem e1) a = load (mem e2) a) ->
  fst (run_served None c e1) = fst (run_served (Some z) c e2) /\
  forall a,
    load (mem (snd (run_served None c e1))) a =
      load (mem (snd (run_served (Some z) c e2))) a.
Proof.
  intros Hz. unfold run_served. revert e1 e2.
  induction c as [r|A e k IH]; intros e1 e2 Hmem; simpl.
  - done.
  - destruct e; simpl.
    + rewrite Hmem. by apply IH.
    + apply IH. simpl. intros a'. by rewrite !load_store, Hmem.
    + apply IH. simpl. intros a'. by rewrite load_zero_fill, Hz, Hmem.
    + apply IH. simpl. intros a'. by rewrite load_zero_fill, Hz, Hmem.
Qed.

(** C6.  A seeded call made with the null pointer, which leaves the slot
    empty, returns the same status and leaves every memory cell reading
    the same as the same call made with any callback that always writes
    zero bytes; and so does any PQClean routine that finds the slot empty,
    against the same routine with such a callback installed. *)
Theorem empty_slot_is_zero_source {X : Type} `{PQClean}
    (t : tid) (z : FillCode X) (w : World X) :
  writes_zeros z ->
  (forall pk sk,
     let empty := exec t (tt_falcon512_keypair_seeded pk sk None) w in
     let zeros := exec t (tt_falcon512_keypair_seeded pk sk (Some z)) w in
     slot_state (snd empty) t = Empty /\
     fst empty = fst zeros /\
     forall a,
       load (mem (env (snd empty))) a = load (mem (env (snd zeros))) a) /\
  (forall sig siglen m mlen sk,
     let empty :=
       exec t (tt_falcon512_sign_seeded sig siglen m mlen sk None) w in
     let zeros :=
       exec t (tt_falcon512_sign_seeded sig siglen m mlen sk (Some z)) w in
     slot_state (snd empty) t = Empty /\
     fst empty = fst zeros /\
     forall a,
       load (mem (env (snd empty))) a = load (mem (env (snd zeros))) a) /\
  (forall (R : Type) (c : Code pqE R),
     slot_state w t = Empty ->
     let empty := exec_pq t c w in
     let zeros := exec_pq t c (tt_set_randombytes t (Some z) w) in
     fst empty = fst zeros /\
     forall a,
       load (mem (env (snd empty))) a = load (mem (env (snd zeros))) a).
Proof.
  intros Hz.
  assert (Hboth : forall (c : Code pqE int),
    let empty := exec_pq t c (tt_set_randombytes t None w) in
    let zeros := exec_pq t c (tt_set_randombytes t (Some z) w) in
    slot_state (snd empty) t = Empty /\
    fst empty = fst zeros /\
    forall a,
      load (mem (env (snd empty))) a = load (mem (env (snd zeros))) a).
  { intros c empty zeros. subst empty zeros.
    rewrite !exec_seeded_served.
    pose proof (run_served_zero z c (env w) (env w) Hz (fun a => eq_refl))
      as [Hr Hm].
    destruct (run_served None c (env w)) as [r1 ev1].
    destruct (run_served (Some z) c (env w)) as [r2 ev2].
    simpl in *. repeat apply conj; try done.
    unfold slot_state. simpl.
    by rewrite lookup_partial_alter, decide_True. }
  repeat apply conj.
  - intros pk sk. rewrite !exec_keypair_seeded. apply Hboth.
  - intros sig siglen m mlen sk. rewrite !exec_sign_seeded. apply Hboth.
  - intros R c Hempty empty zeros. subst empty zeros.
    unfold slot_state in Hempty.
    destruct (tls_fill w !! t) as [f|] eqn:Hslot; [discriminate|].
    rewrite exec_seeded_served, exec_pq_served, Hslot.
    pose proof (run_served_zero z c (env w) (env w) Hz (fun a => eq_refl))
      as [Hr Hm].
    destruct (run_served None c (env w)) as [r1 ev1].
    destruct (run_served (Some z) c (env w)) as [r2 ev2].
    done.
Qed.

Lemma load_memset (n : nat) (out : ptr) (b : byte) (m : memory) (a : ptr) :
  load (Toy.memset n out b m) a =
    if (out <=? a) && (a <? out + N.of_nat n) then b else load m a.
Proof.
  induction n as [|n IH]; simpl Toy.memset.
  - destruct (N.leb_spec out a), (N.ltb_spec a (out + N.of_nat 0));
      simpl; try reflexivity; lia.
  - rewrite load_store, IH.
    destruct (N.leb_spec out a), (N.ltb_spec a (out + N.of_nat n)),
             (N.ltb_spec a (out + N.of_nat (S n)));
      simpl; repeat case_decide; try reflexivity; lia.
Qed.

Lemma counting_zero_fill_writes_zeros : writes_zeros Toy.counting_zero_fill.
Proof.
  intros out outlen e a. unfold Toy.counting_zero_fill. simpl.
  by rewrite load_memset, N2Nat.id.
Qed.

Lemma empty_slot_is_zero_source_witness :
  let empty :=
    exec 0%nat (tt_falcon512_keypair_seeded (H := Toy.lib) 100 200 None) Toy.w1 in
  let zeros :=
    exec 0%nat
      (tt_falcon512_keypair_seeded (H := Toy.lib) 100 200
         (Some Toy.counting_zero_fill)) Toy.w1 in
  slot_state (snd empty) 0%nat = Empty /\
  fst empty = fst zeros /\
  forall a, load (mem (env (snd empty))) a = load (mem (env (snd zeros))) a.
Proof.
  apply (proj1 (empty_slot_is_zero_source (H := Toy.lib)
                  0%nat Toy.counting_zero_fill Toy.w1
                  counting_zero_fill_writes_zeros)).
Defined.

(** On the concrete instance both runs are refused with status [-1] and
    leave zeros in the two key cells. *)
Example empty_slot_keypair_refused :
  let empty :=
    exec 0%nat (tt_falcon512_keypair_seeded (H := Toy.lib) 100 200 None) Toy.w1 in
  fst empty = (-1)%Z /\
  load (mem (env (snd empty))) 100 = x00 /\
  load (mem (env (snd empty))) 200 = x00.
Proof. vm_compute. done. Qed.

(** ** Determinism in the injected source *)

Lemma same_stream_step {X : Type} (f1 f2 : FillCode X) (x1 x2 : X)
    (out : ptr) (outlen : size_t) (m : memory) :
  same_stream f1 x1 f2 x2 ->
  mem (f1 out outlen (mkEnv m x1)) = mem (f2 out outlen (mkEnv m x2)) /\
  same_stream f1 (gen (f1 out outlen (mkEnv m x1)))
              f2 (gen (f2 out outlen (mkEnv m x2))).
Proof.
  intros Hs. split.
  - specialize (Hs [(out, outlen, m)]). simpl in Hs. by injection Hs.
  - intros reqs. specialize (Hs ((out, outlen, m) :: reqs)).
    simpl in Hs. by injection Hs.
Qed.

Lemma run_served_same_stream {X R : Type} (f1 f2 : FillCode X)
    (c : Code pqE R) (e1 e2 : Env X) :
  mem e1 = mem e2 ->
  same_stream f1 (gen e1) f2 (gen e2) ->
  fst (run_served (Some f1) c e1) = fst (run_served (Some f2) c e2) /\
  mem (snd (run_served (Some f1) c e1)) =
    mem (snd (run_served (Some f2) c e2)).
Proof.
  unfold run_served. revert e1 e2.
  induction c as [r|A e k IH]; intros [m1 x1] [m2 x2]; simpl;
    intros <- Hs.
  - done.
  - destruct e; simpl.
    + by apply IH.
    + by apply IH.
    + destruct (same_stream_step f1 f2 x1 x2 out outlen m1 Hs).
      by apply IH.
    + destruct (same_stream_step f1 f2 x1 x2 out outlen m1 Hs).
      by apply IH.
Qed.

(** C7.  Two key generations whose callbacks produce the same byte stream
    return the same status and leave the same memory, hence the same
    public and secret key, whichever thread runs them and whatever the
    slots held before: nothing but the callback feeds the routine. *)
Theorem keypair_deterministic {X : Type} `{PQClean}
    (t1 t2 : tid) (pk sk : ptr) (f1 f2 : FillCode X) (w1 w2 : World X) :
  mem (env w1) = mem (env w2) ->
  same_stream f1 (gen (env w1)) f2 (gen (env w2)) ->
  let first := exec t1 (tt_falcon512_keypair_seeded pk sk (Some f1)) w1 in
  let second := exec t2 (tt_falcon512_keypair_seeded pk sk (Some f2)) w2 in
  fst first = fst second /\
  mem (env (snd first)) = mem (env (snd second)) /\
  forall a, load (mem (env (snd first))) a = load (mem (env (snd second))) a.
Proof.
  intros Hmem Hs first second. subst first second.
  rewrite !exec_keypair_seeded, !exec_seeded_served.
  pose proof (run_served_same_stream f1 f2
    (PQCLEAN_FALCON512_CLEAN_crypto_sign_keypair pk sk) _ _ Hmem Hs) as [Hr Hm].
  destruct (run_served (Some f1) _ (env w1)) as [r1 ev1].
  destruct (run_served (Some f2) _ (env w2)) as [r2 ev2].
  simpl in *. repeat apply conj; try done.
  intros a. by rewrite Hm.
Qed.

(** The two counters of the concrete instance advance differently and
    deliver the same bytes. *)
Lemma parity_same_stream (x1 x2 : nat) :
  Nat.even x1 = Nat.even x2 ->
  same_stream (Toy.parity_fill 1) x1 (Toy.parity_fill 3) x2.
Proof.
  intros Hx reqs. revert x1 x2 Hx.
  induction reqs as [|[[out outlen] m] reqs IH]; intros x1 x2 Hx; simpl.
  - reflexivity.
  - rewrite Hx. f_equal. apply IH.
    rewrite !Nat.even_add, Hx. reflexivity.
Qed.

Lemma keypair_deterministic_witness :
  let first :=
    exec 0%nat (tt_falcon512_keypair_seeded (H := Toy.lib) 100 200
                  (Some (Toy.parity_fill 1))) Toy.w0 in
  let second :=
    exec 1%nat (tt_falcon512_keypair_seeded (H := Toy.lib) 100 200
                  (Some (Toy.parity_fill 3)))
         (mkWorld (tls_fill Toy.w1) (mkEnv Toy.mem0 2%nat)) in
  fst first = fst second /\
  mem (env (snd first)) = mem (env (snd second)) /\
  forall a, load (mem (env (snd first))) a = load (mem (env (snd second))) a.
Proof.
  apply (keypair_deterministic (H := Toy.lib) 0%nat 1%nat 100 200
           (Toy.parity_fill 1) (Toy.parity_fill 3)
           Toy.w0 (mkWorld (tls_fill Toy.w1) (mkEnv Toy.mem0 2%nat))
           eq_refl (parity_same_stream 0 2 eq_refl)).
Defined.

(** ** Contexts do not see one another *)

Section Isolation.
Context {X R : Type}.
Implicit Types (p q : Pool X R) (s : list tid) (t u : tid).

Lemma run_schedule_cons u s p :
  run_schedule (u :: s) p = run_schedule s (step u p).
Proof. reflexivity. Qed.

(** A step of another thread is invisible to [t]. *)
Lemma step_other t u p :
  u <> t ->
  slots (step u p) !! t = slots p !! t /\
  ctxs (step u p) !! t = ctxs p !! t.
Proof.
  intros Hne. unfold step.
  destruct (ctxs p !! u) as [[[r|A e k] ev]|]; try done.
  destruct e as [A e'|fill_fn]; simpl.
  - rewrite handle_pq_served. simpl.
    destruct (handle_served (slots p !! u) A e' ev) as [a ev']. simpl.
    split; [done|]. by rewrite lookup_insert_ne.
  - split.
    + by rewrite lookup_partial_alter, decide_False.
    + by rewrite lookup_insert_ne.
Qed.

(** A step of [t] is decided by what [t] itself holds. *)
Lemma step_own t p q :
  slots p !! t = slots q !! t ->
  ctxs p !! t = ctxs q !! t ->
  slots (step t p) !! t = slots (step t q) !! t /\
  ctxs (step t p) !! t = ctxs (step t q) !! t.
Proof.
  intros Hs Hc. unfold step. rewrite <- Hc.
  destruct (ctxs p !! t) as [[[r|A e k] ev]|] eqn:Hp;
    try (split; congruence).
  destruct e as [A e'|fill_fn]; simpl.
  - rewrite !handle_pq_served. simpl. rewrite <- Hs.
    destruct (handle_served (slots p !! t) A e' ev) as [a ev']. simpl.
    split; [done|]. by rewrite !lookup_insert_eq.
  - split.
    + by rewrite !lookup_partial_alter, !decide_True.
    + by rewrite !lookup_insert_eq.
Qed.

Lemma run_schedule_own t s p q :
  slots p !! t = slots q !! t ->
  ctxs p !! t = ctxs q !! t ->
  slots (run_schedule s p) !! t = slots (run_schedule (own_steps t s) q) !! t /\
  ctxs (run_schedule s p) !! t = ctxs (run_schedule (own_steps t s) q) !! t.
Proof.
  revert p q. induction s as [|u s IH]; intros p q Hs Hc.
  - done.
  - unfold own_steps. rewrite filter_cons. fold (own_steps t s).
    case_decide as Hu.
    + subst u. rewrite !run_schedule_cons.
      destruct (step_own t p q Hs Hc). by apply IH.
    + rewrite run_schedule_cons.
      destruct (step_other t u p Hu) as [Hs' Hc'].
      apply IH; congruence.
Qed.

Lemma own_steps_replicate t s :
  own_steps t s = replicate (length (own_steps t s)) t.
Proof.
  unfold own_steps. induction s as [|u s IH]; [done|].
  rewrite filter_cons. case_decide; [|done].
  subst u. simpl. by rewrite <- IH.
Qed.

Lemma own_steps_Permutation t s s' :
  s ≡ₚ s' -> own_steps t s = own_steps t s'.
Proof.
  intros Hperm.
  rewrite (own_steps_replicate t s), (own_steps_replicate t s').
  f_equal. apply Permutation_length. unfold own_steps. by rewrite Hperm.
Qed.

Lemma pool_eq p q :
  (forall t, slots p !! t = slots q !! t) ->
  (forall t, ctxs p !! t = ctxs q !! t) ->
  p = q.
Proof.
  destruct p as [sp cp], q as [sq cq]. simpl. intros Hs Hc.
  f_equal; by apply map_eq.
Qed.

End Isolation.

Section BoundaryOfASchedule.
Context {X R : Type}.
Implicit Types (p : Pool X R) (s : list tid) (t u : tid).

Lemma own_install_app t (held : fill_fn_t X) (tr tr' : list (Obs X)) :
  own_install t held (tr ++ tr') = own_install t (own_install t held tr) tr'.
Proof.
  revert held. induction tr as [|[u f|u seen out outlen] tr IH];
    intros held; simpl; [done | apply IH | apply IH].
Qed.

(** One step shows at most one observation: an installation by the
    stepping thread, or a request by it that finds its own cell. *)
Lemma step_obs_cases u p :
  step_obs u p = [] \/
  (exists fill_fn, step_obs u p = [ObsInstall u fill_fn]) \/
  (exists out outlen, step_obs u p = [ObsFill u (slots p !! u) out outlen]).
Proof.
  unfold step_obs.
  destruct (ctxs p !! u) as [[[r|A e k] ev]|]; try by left.
  destruct e as [A e'|fill_fn]; simpl.
  - destruct e'; simpl; eauto.
  - eauto.
Qed.

(** Its own installations account for what a thread holds after a step
    of any thread. *)
Lemma step_obs_slot t u p :
  own_install t (slots p !! t) (step_obs u p) = slots (step u p) !! t.
Proof.
  unfold step_obs, step.
  destruct (ctxs p !! u) as [[[r|A e k] ev]|]; try done.
  destruct e as [A e'|fill_fn]; simpl.
  - rewrite handle_pq_served. simpl.
    destruct (handle_served (slots p !! u) A e' ev) as [a ev']. simpl.
    by destruct e'.
  - rewrite lookup_partial_alter. by case_decide.
Qed.

Lemma pool_trace_own s p
    (pre post : list (Obs X)) t (seen : fill_fn_t X) out outlen :
  pool_trace s p = pre ++ ObsFill t seen out outlen :: post ->
  seen = own_install t (slots p !! t) pre.
Proof.
  revert p pre. induction s as [|u s IH]; intros p pre; simpl.
  - by destruct pre.
  - intros Htr. pose proof (step_obs_slot t u p) as Hslot.
    destruct (step_obs_cases u p) as [Hobs|[[f Hobs]|(o & n & Hobs)]];
      rewrite Hobs in Htr, Hslot; simpl in Htr, Hslot.
    + rewrite Hslot. by apply IH.
    + destruct pre as [|o' pre]; simpl in Htr; [discriminate|].
      injection Htr as <- Htr. simpl. rewrite Hslot. by apply IH.
    + destruct pre as [|o' pre]; simpl in Htr.
      * by injection Htr as -> -> _ _ _.
      * injection Htr as <- Htr. simpl. rewrite Hslot. by apply IH.
Qed.

End BoundaryOfASchedule.

(** C8.  The slot is one cell per thread.  Under any schedule, every
    entropy request finds in the slot what the requesting thread itself
    installed last (or held at the start), never what another thread
    installed; what a context ends with (its slot, the rest of its call,
    its memory and generator) is what it ends with when its own steps are
    run with no other context stepping, in any pool that agrees on that
    context alone; hence two schedules that order the same steps
    differently, an interleaved one and a sequential one in particular,
    end in the same pool. *)
Theorem contexts_isolated {X R : Type} (s : list tid) (p : Pool X R) :
  (forall pre post t seen out outlen,
     pool_trace s p = pre ++ ObsFill t seen out outlen :: post ->
     seen = own_install t (slots p !! t) pre) /\
  (forall t q,
     slots p !! t = slots q !! t ->
     ctxs p !! t = ctxs q !! t ->
     slots (run_schedule s p) !! t =
       slots (run_schedule (own_steps t s) q) !! t /\
     ctxs (run_schedule s p) !! t =
       ctxs (run_schedule (own_steps t s) q) !! t) /\
  (forall s', s ≡ₚ s' -> run_schedule s p = run_schedule s' p).
Proof.
  repeat apply conj.
  - intros pre post t seen out outlen. apply pool_trace_own.
  - intros t q. apply run_schedule_own.
  - intros s' Hperm. apply pool_eq; intros t.
    + destruct (run_schedule_own t s p p eq_refl eq_refl) as [-> _].
      destruct (run_schedule_own t s' p p eq_refl eq_refl) as [-> _].
      by rewrite (own_steps_Permutation t s s').
    + destruct (run_schedule_own t s p p eq_refl eq_refl) as [_ ->].
      destruct (run_schedule_own t s' p p eq_refl eq_refl) as [_ ->].
      by rewrite (own_steps_Permutation t s s').
Qed.

Lemma contexts_isolated_witness :
  Some (Toy.parity_fill 1) =
    own_install 0%nat (slots Toy.pool0 !! 0%nat)
      [ObsInstall 0%nat (Some (Toy.parity_fill 1));
       ObsInstall 1%nat (Some (Toy.parity_fill 2));
       ObsFill 1%nat (Some (Toy.parity_fill 2)) 1000 2] /\
  (slots (run_schedule Toy.interleaved Toy.pool0) !! 0%nat =
     slots (run_schedule (own_steps 0%nat Toy.interleaved) Toy.solo0) !! 0%nat /\
   ctxs (run_schedule Toy.interleaved Toy.pool0) !! 0%nat =
     ctxs (run_schedule (own_steps 0%nat Toy.interleaved) Toy.solo0) !! 0%nat) /\
  run_schedule Toy.interleaved Toy.pool0 =
    run_schedule Toy.sequential Toy.pool0.
Proof.
  repeat apply conj.
  - apply (proj1 (contexts_isolated [0; 1; 1; 0]%nat Toy.pool0)
             _ [] 0%nat _ 1000 2).
    reflexivity.
  - apply (proj1 (proj2 (contexts_isolated Toy.interleaved Toy.pool0))
             0%nat Toy.solo0); reflexivity.
  - apply (proj1 (proj2 (contexts_isolated Toy.interleaved Toy.pool0))
             0%nat Toy.solo0); reflexivity.
  - apply (proj2 (proj2 (contexts_isolated Toy.interleaved Toy.pool0))
             Toy.sequential).
    apply (bool_decide_unpack _). vm_compute. exact I.
Defined.

(** * Further properties of the two files *)

(** ** The fallback loop as an operation on memory *)

Lemma lookup_zero_loop (fuel : nat) (out : ptr) (i outlen : size_t)
    (m : memory) (a : ptr) :
  (N.to_nat (outlen - i) <= fuel)%nat ->
  zero_loop fuel out i outlen m !! a =
    if (out + i <=? a) && (a <? out + outlen) then Some x00 else m !! a.
Proof.
  revert i m. induction fuel as [|fuel IH]; intros i m Hfuel; simpl.
  - destruct (N.leb_spec (out + i) a), (N.ltb_spec a (out + outlen));
      simpl; try reflexivity; lia.
  - destruct (N.ltb_spec i outlen) as [Hlt|Hge].
    + rewrite IH by lia. unfold store. rewrite lookup_insert.
      destruct (N.leb_spec (out + N.succ i) a),
               (N.leb_spec (out + i) a),
               (N.ltb_spec a (out + outlen));
        simpl; repeat case_decide; try reflexivity; lia.
    + destruct (N.leb_spec (out + i) a), (N.ltb_spec a (out + outlen));
        simpl; try reflexivity; lia.
Qed.

Lemma lookup_zero_fill (out : ptr) (outlen : size_t) (m : memory) (a : ptr) :
  zero_fill out outlen m !! a =
    if (out <=? a) && (a <? out + outlen) then Some x00 else m !! a.
Proof.
  unfold zero_fill. rewrite lookup_zero_loop by lia.
  by rewrite N.add_0_r.
Qed.

Ltac zero_fill_cases :=
  apply map_eq; intros ?a; rewrite !lookup_zero_fill;
  repeat match goal with
         | |- context [N.leb ?x ?y] => destruct (N.leb_spec x y)
         | |- context [N.ltb ?x ?y] => destruct (N.ltb_spec x y)
         end;
  simpl; try reflexivity; lia.

Lemma zero_fill_split (out : ptr) (n1 n2 : size_t) (m : memory) :
  zero_fill out (n1 + n2) m = zero_fill (out + n1) n2 (zero_fill out n1 m).
Proof. zero_fill_cases. Qed.

Lemma zero_fill_idem (out : ptr) (n : size_t) (m : memory) :
  zero_fill out n (zero_fill out n m) = zero_fill out n m.
Proof. zero_fill_cases. Qed.

Lemma zero_fill_comm (out1 out2 : ptr) (n1 n2 : size_t) (m : memory) :
  zero_fill out1 n1 (zero_fill out2 n2 m) =
    zero_fill out2 n2 (zero_fill out1 n1 m).
Proof. zero_fill_cases. Qed.

Lemma randombytes_empty {X : Type} (t : tid) (out : ptr) (outlen : size_t)
    (w : World X) :
  tls_fill w !! t = None ->
  randombytes t out outlen w =
    mkWorld (tls_fill w)
            (mkEnv (zero_fill out outlen (mem (env w))) (gen (env w))).
Proof. intros Hnone. unfold randombytes. by rewrite Hnone. Qed.

(** X1.  On an empty slot one request for [n1 + n2] bytes at [out] leaves
    the world exactly as a request for [n1] bytes at [out] followed by one
    for [n2] bytes at [out + n1]. *)
Theorem fallback_requests_concatenate {X : Type}
    (t : tid) (out : ptr) (n1 n2 : size_t) (w : World X) :
  tls_fill w !! t = None ->
  randombytes t out (n1 + n2) w =
    randombytes t (out + n1) n2 (randombytes t out n1 w).
Proof.
  intros Hnone.
  rewrite (randombytes_empty t out n1 w) by done.
  rewrite !randombytes_empty by done.
  simpl. by rewrite zero_fill_split.
Qed.

Lemma fallback_requests_concatenate_witness :
  randombytes 0%nat 100 (2 + 3) Toy.w0 =
    randombytes 0%nat (100 + 2) 3 (randombytes 0%nat 100 2 Toy.w0).
Proof.
  apply (fallback_requests_concatenate 0%nat 100 2 3 Toy.w0). reflexivity.
Defined.

(** With a callback installed the same does not hold in general: the
    parity source answers one request for two bytes with [01 01] and two
    requests for one byte with [01 02]. *)
Example installed_requests_do_not_concatenate :
  load (mem (env (randombytes 0%nat 100 (1 + 1) Toy.w1))) 101 = x01 /\
  load (mem (env (randombytes 0%nat (100 + 1) 1
                    (randombytes 0%nat 100 1 Toy.w1)))) 101 = x02.
Proof. vm_compute. done. Qed.

(** X2.  On an empty slot a repeated request changes nothing further, and
    two requests, overlapping or not, can be made in either order. *)
Theorem fallback_requests_idempotent_commute {X : Type}
    (t : tid) (w : World X) :
  tls_fill w !! t = None ->
  (forall out n,
     randombytes t out n (randombytes t out n w) = randombytes t out n w) /\
  (forall out1 n1 out2 n2,
     randombytes t out1 n1 (randombytes t out2 n2 w) =
       randombytes t out2 n2 (randombytes t out1 n1 w)).
Proof.
  intros Hnone. split.
  - intros out n. rewrite (randombytes_empty t out n w) by done.
    rewrite randombytes_empty by done. simpl. by rewrite zero_fill_idem.
  - intros out1 n1 out2 n2.
    rewrite (randombytes_empty t out2 n2 w) by done.
    rewrite (randombytes_empty t out1 n1 w) by done.
    rewrite !randombytes_empty by done.
    simpl. by rewrite zero_fill_comm.
Qed.

Lemma fallback_requests_idempotent_commute_witness :
  randombytes 0%nat 10 2 (randombytes 0%nat 10 2 Toy.w0) =
    randombytes 0%nat 10 2 Toy.w0 /\
  randombytes 0%nat 10 2 (randombytes 0%nat 11 20 Toy.w0) =
    randombytes 0%nat 11 20 (randombytes 0%nat 10 2 Toy.w0).
Proof.
  split.
  - apply (proj1 (fallback_requests_idempotent_commute 0%nat Toy.w0 eq_refl)).
  - apply (proj2 (fallback_requests_idempotent_commute 0%nat Toy.w0 eq_refl)).
Defined.

(** ** Threads and the slot, function by function *)

(** X3.  What one thread installs and what another thread does commute:
    two installations by different threads can be made in either order,
    and an entropy request by one thread, through either symbol, gives the
    same world whether another thread's installation comes before or
    after it. *)
Theorem other_thread_commutes {X : Type}
    (t u : tid) (fill_fn other_fn : fill_fn_t X) (w : World X) :
  t <> u ->
  tt_set_randombytes t fill_fn (tt_set_randombytes u other_fn w) =
    tt_set_randombytes u other_fn (tt_set_randombytes t fill_fn w) /\
  (forall out outlen,
     randombytes u out outlen (tt_set_randombytes t fill_fn w) =
       tt_set_randombytes t fill_fn (randombytes u out outlen w)) /\
  (forall out outlen,
     PQCLEAN_randombytes u out outlen (tt_set_randombytes t fill_fn w) =
       tt_set_randombytes t fill_fn (PQCLEAN_randombytes u out outlen w)).
Proof.
  intros Hne.
  assert (Hreq : forall out outlen,
    randombytes u out outlen (tt_set_randombytes t fill_fn w) =
      tt_set_randombytes t fill_fn (randombytes u out outlen w)).
  { intros out outlen. rewrite !randombytes_serve.
    by rewrite set_lookup_ne. }
  repeat apply conj.
  - unfold tt_set_randombytes. simpl.
    by rewrite partial_alter_partial_alter_ne.
  - exact Hreq.
  - exact Hreq.
Qed.

Lemma other_thread_commutes_witness :
  randombytes 0%nat 100 2
      (tt_set_randombytes 1%nat (Some (Toy.parity_fill 2)) Toy.w1) =
    tt_set_randombytes 1%nat (Some (Toy.parity_fill 2))
      (randombytes 0%nat 100 2 Toy.w1).
Proof.
  apply (proj1 (proj2 (other_thread_commutes 1%nat 0%nat
                         (Some (Toy.parity_fill 2)) None Toy.w1
                         (fun H : 1%nat = 0%nat => O_S 0 (eq_sym H))))).
Defined.

Section CallerPrograms.
Context {X : Type}.
Implicit Types (w : World X) (t : tid).

Lemma handle_shim_cell t (A : Type) (e : shimE X A) w :
  handle_shim t A e w =
    let '(a, (cell, ev)) := handle_cell A e (tls_fill w !! t, env w) in
    (a, mkWorld (partial_alter (fun _ => cell) t (tls_fill w)) ev).
Proof.
  destruct e as [A e'|fill_fn]; simpl.
  - rewrite handle_pq_served.
    destruct (handle_served (tls_fill w !! t) A e' (env w)) as [a ev].
    by rewrite partial_alter_self.
  - reflexivity.
Qed.

Lemma exec_cell {R : Type} t (c : Code (shimE X) R) w :
  exec t c w =
    let '(r, (cell, ev)) := run_cell c (tls_fill w !! t, env w) in
    (r, mkWorld (partial_alter (fun _ => cell) t (tls_fill w)) ev).
Proof.
  unfold exec, run_cell. revert w.
  induction c as [r|A e k IH]; intros w; simpl.
  - by rewrite partial_alter_self, world_eta.
  - rewrite handle_shim_cell.
    destruct (handle_cell A e (tls_fill w !! t, env w)) as [a [cell ev]].
    rewrite IH. simpl.
    rewrite lookup_partial_alter, decide_True by done.
    destruct (run handle_cell (k a) (cell, ev)) as [r [cell' ev']].
    by rewrite partial_alter_partial_alter_eq.
Qed.

End CallerPrograms.

(** X4.  Whatever a thread's program does by way of installations, entropy
    requests and memory accesses, in any number and order, its result and
    the memory and cell it leaves are those of the same program run on the
    thread's own cell alone; every other thread's cell is left as it was. *)
Theorem thread_program_local {X R : Type}
    (t : tid) (c : Code (shimE X) R) (w : World X) :
  exec t c w =
    (let '(r, (cell, ev)) := run_cell c (tls_fill w !! t, env w) in
     (r, mkWorld (partial_alter (fun _ => cell) t (tls_fill w)) ev)) /\
  forall u,
    tls_fill (snd (exec t c w)) !! u =
      if decide (t = u)
      then fst (snd (run_cell c (tls_fill w !! t, env w)))
      else tls_fill w !! u.
Proof.
  split; [apply exec_cell|].
  intros u. rewrite exec_cell.
  destruct (run_cell c (tls_fill w !! t, env w)) as [r [cell ev]]. simpl.
  apply lookup_partial_alter.
Qed.

(** ** Determinism of signing *)

(** X7.  Two signing calls on the same memory whose callbacks produce the
    same byte stream return the same status and leave the same memory,
    hence the same signature and stored length, whichever threads run
    them and whatever the slots held before. *)
Theorem sign_deterministic {X : Type} `{PQClean}
    (t1 t2 : tid) (sig siglen m : ptr) (mlen : size_t) (sk : ptr)
    (f1 f2 : FillCode X) (w1 w2 : World X) :
  mem (env w1) = mem (env w2) ->
  same_stream f1 (gen (env w1)) f2 (gen (env w2)) ->
  let first :=
    exec t1 (tt_falcon512_sign_seeded sig siglen m mlen sk (Some f1)) w1 in
  let second :=
    exec t2 (tt_falcon512_sign_seeded sig siglen m mlen sk (Some f2)) w2 in
  fst first = fst second /\
  mem (env (snd first)) = mem (env (snd second)).
Proof.
  intros Hmem Hs first second. subst first second.
  rewrite !exec_sign_seeded, !exec_seeded_served.
  pose proof (run_served_same_stream f1 f2
    (PQCLEAN_FALCON512_CLEAN_crypto_sign_signature sig siglen m mlen sk)
    _ _ Hmem Hs) as [Hr Hm].
  destruct (run_served (Some f1) _ (env w1)) as [r1 ev1].
  destruct (run_served (Some f2) _ (env w2)) as [r2 ev2].
  done.
Qed.

Lemma sign_deterministic_witness :
  let first :=
    exec 0%nat (tt_falcon512_sign_seeded (H := Toy.lib) 300 400 10 1 20
                  (Some (Toy.parity_fill 1))) Toy.w0 in
  let second :=
    exec 1%nat (tt_falcon512_sign_seeded (H := Toy.lib) 300 400 10 1 20
                  (Some (Toy.parity_fill 3)))
         (mkWorld (tls_fill Toy.w1) (mkEnv Toy.mem0 2%nat)) in
  fst first = fst second /\
  mem (env (snd first)) = mem (env (snd second)).
Proof.
  apply (sign_deterministic (H := Toy.lib) 0%nat 1%nat 300 400 10 1 20
           (Toy.parity_fill 1) (Toy.parity_fill 3)
           Toy.w0 (mkWorld (tls_fill Toy.w1) (mkEnv Toy.mem0 2%nat))
           eq_refl (parity_same_stream 0 2 eq_refl)).
Defined.

(** X8.  Installing again what the slot held before undoes an
    installation exactly; after a seeded call it gives back the slots as
    they were before the call. *)
Theorem reinstall_restores {X : Type} `{PQClean}
    (t : tid) (fill_fn : fill_fn_t X) (w : World X) :
  tt_set_randombytes t (tls_fill w !! t) (tt_set_randombytes t fill_fn w) = w /\
  (forall pk sk,
     tls_fill
       (tt_set_randombytes t (tls_fill w !! t)
          (snd (exec t (tt_falcon512_keypair_seeded pk sk fill_fn) w))) =
       tls_fill w) /\
  (forall sig siglen m mlen sk,
     tls_fill
       (tt_set_randombytes t (tls_fill w !! t)
          (snd (exec t (tt_falcon512_sign_seeded sig siglen m mlen sk fill_fn) w))) =
       tls_fill w).
Proof.
  assert (Hback : partial_alter (fun _ => tls_fill w !! t) t
                    (partial_alter (fun _ => fill_fn) t (tls_fill w)) =
                  tls_fill w).
  { rewrite partial_alter_partial_alter_eq. apply partial_alter_self. }
  repeat apply conj.
  - unfold tt_set_randombytes. simpl. rewrite Hback. apply world_eta.
  - intros pk sk. simpl. rewrite exec_keypair_seeded, exec_pq_tls.
    exact Hback.
  - intros sig siglen m mlen sk. simpl.
    rewrite exec_sign_seeded, exec_pq_tls. exact Hback.
Qed.

(** ** The callback runs only on request *)

Lemma run_served_entropy_free_gen {X R : Type}
    (f : fill_fn_t X) (c : Code pqE R) (ev : Env X) :
  entropy_free c -> gen (snd (run_served f c ev)) = gen ev.
Proof.
  unfold run_served. revert ev.
  induction c as [r|A e k IH]; intros ev Hfree; simpl.
  - reflexivity.
  - destruct Hfree as [He Hk].
    destruct e; simpl in He; try discriminate; simpl; by rewrite IH.
Qed.

(** X9.  The wrappers themselves never invoke the callback they install:
    when the PQClean routine makes no entropy request, a seeded call
    leaves the generator state untouched and returns the same status and
    memory whatever callback, null included, it was given. *)
Theorem callback_runs_only_on_request {X : Type} `{PQClean}
    (t : tid) (fill_fn other_fn : fill_fn_t X) (w : World X) :
  (forall pk sk,
     entropy_free (PQCLEAN_FALCON512_CLEAN_crypto_sign_keypair pk sk) ->
     let r := exec t (tt_falcon512_keypair_seeded pk sk fill_fn) w in
     let r' := exec t (tt_falcon512_keypair_seeded pk sk other_fn) w in
     gen (env (snd r)) = gen (env w) /\
     fst r = fst r' /\ env (snd r) = env (snd r')) /\
  (forall sig siglen m mlen sk,
     entropy_free
       (PQCLEAN_FALCON512_CLEAN_crypto_sign_signature sig siglen m mlen sk) ->
     let r := exec t (tt_falcon512_sign_seeded sig siglen m mlen sk fill_fn) w in
     let r' := exec t (tt_falcon512_sign_seeded sig siglen m mlen sk other_fn) w in
     gen (env (snd r)) = gen (env w) /\
     fst r = fst r' /\ env (snd r) = env (snd r')).
Proof.
  assert (Hquiet : forall (c : Code pqE int),
    entropy_free c ->
    let r := exec_pq t c (tt_set_randombytes t fill_fn w) in
    let r' := exec_pq t c (tt_set_randombytes t other_fn w) in
    gen (env (snd r)) = gen (env w) /\
    fst r = fst r' /\ env (snd r) = env (snd r')).
  { intros c Hfree r r'. subst r r'. rewrite !exec_seeded_served.
    rewrite (run_served_entropy_free other_fn fill_fn c (env w) Hfree).
    pose proof (run_served_entropy_free_gen fill_fn c (env w) Hfree) as Hgen.
    by destruct (run_served fill_fn c (env w)) as [r ev]. }
  split.
  - intros pk sk Hfree. rewrite !exec_keypair_seeded. by apply Hquiet.
  - intros sig siglen m mlen sk Hfree. rewrite !exec_sign_seeded.
    by apply Hquiet.
Qed.

Lemma callback_runs_only_on_request_witness :
  let r :=
    exec 0%nat (tt_falcon512_sign_seeded (H := Toy.quiet_lib) 300 400 10 1 20
                  (Some (Toy.parity_fill 1))) Toy.w0 in
  let r' :=
    exec 0%nat (tt_falcon512_sign_seeded (H := Toy.quiet_lib) 300 400 10 1 20
                  None) Toy.w0 in
  gen (env (snd r)) = gen (env Toy.w0) /\
  fst r = fst r' /\ env (snd r) = env (snd r').
Proof.
  apply (proj2 (callback_runs_only_on_request (H := Toy.quiet_lib)
                  0%nat (Some (Toy.parity_fill 1)) None Toy.w0)
               300 400 10 1 20).
  simpl. repeat split.
Defined.
